(** * custom_colormaps: a shallow embedding of [create_colormap] and
    [colormap_tuple] (src/custom_colormaps/custom_colormaps.py).

    Numbers.  NumPy's floating-point values are idealised as exact
    rationals ([Qc], canonical fractions, so that equality is Leibniz
    equality).  What is kept of a dtype is whether the array stores
    floating-point or integer elements, because a store into an integer
    array truncates.

    Objects.  A NumPy array is a reference into a heap of buffers, seen
    through a view ([colors[::-1]] is a view, not a copy).  Python lists
    and tuples of numbers are values.

    Effects.  [create_colormap] runs in a state-and-exception monad over
    the heap; exceptions are the Python exceptions the code can raise. *)

From Stdlib Require Import QArith Qcanon ZArith Ascii String List Lia.
From stdpp Require Import base decidable option list numbers strings gmap.

Local Open Scope Qc_scope.
Local Open Scope string_scope.
Local Open Scope list_scope.

(** ** Numbers *)

Abbreviation num := Qc (only parsing).

Definition num_of_Z (z : Z) : num := Q2Qc (inject_Z z).
Definition num_of_nat (n : nat) : num := num_of_Z (Z.of_nat n).

(** C-style conversion of a real to an integer: rounding towards zero. *)
Definition trunc (x : num) : Z := Z.quot (Qnum (this x)) (Zpos (Qden (this x))).

(** [np.isclose(a, b)] with the default tolerances
    [rtol = 1e-05], [atol = 1e-08]: [|a - b| <= atol + rtol * |b|], on
    finite numbers. *)
Definition rtol : num := Q2Qc (1 # 100000).
Definition atol : num := Q2Qc (1 # 100000000).

Definition Qcabs (x : num) : num := if decide (x < 0) then - x else x.

Definition isclose (a b : num) : bool :=
  bool_decide (Qcabs (a - b) <= atol + rtol * Qcabs b).

(** ** Arrays and the heap *)

Inductive dtype := DFloat | DInt.

(** A colour row [(R, G, B)]. *)
Abbreviation rgb := (num * num * num)%type (only parsing).

(** What an element becomes when it is stored into an array of the given
    dtype. *)
Definition cast (dt : dtype) (x : num) : num :=
  match dt with
  | DFloat => x
  | DInt => num_of_Z (trunc x)
  end.

Definition cast_row (dt : dtype) (c : rgb) : rgb :=
  let '(r, g, b) := c in (cast dt r, cast dt g, cast dt b).

Record buffer := Buffer { buf_dtype : dtype; buf_rows : list rgb }.

Abbreviation loc := nat (only parsing).
Abbreviation heap := (list buffer) (only parsing).

(** An [ndarray] object of shape (N, 3): a buffer and whether the rows
    are seen in reverse order (the result of [a[::-1]]). *)
Record ndarray := NdArray { nd_base : loc; nd_flip : bool }.

Definition view {A} (flip : bool) (l : list A) : list A :=
  if flip then rev l else l.

(** ** Exceptions and the monad *)

(** [DanglingReference] stands for the use of an array that is not in the
    heap; it keeps the model total and no Python run produces it. *)
Inductive exn :=
| ValueError (msg : string)
| IndexError
| DanglingReference.

Inductive outcome (A : Type) :=
| Ret (a : A)
| Raise (e : exn).
Arguments Ret {A} a.
Arguments Raise {A} e.

Definition M (A : Type) : Type := heap -> outcome A * heap.

Definition ret {A} (a : A) : M A := fun h => (Ret a, h).
Definition raise {A} (e : exn) : M A := fun h => (Raise e, h).
Definition bind {A B} (m : M A) (k : A -> M B) : M B :=
  fun h => match m h with
           | (Ret a, h') => k a h'
           | (Raise e, h') => (Raise e, h')
           end.

Declare Scope py_scope.
Delimit Scope py_scope with py.
Notation "x <- m ;; k" := (bind m (fun x => k))
  (at level 100, m at next level, right associativity) : py_scope.
Notation "m ;;; k" := (bind m (fun _ => k))
  (at level 100, right associativity) : py_scope.
Local Open Scope py_scope.

(** [np.array(rows, dtype=dt)]: a fresh buffer holding a copy. *)
Definition np_array (dt : dtype) (rows : list rgb) : M ndarray :=
  fun h => (Ret (NdArray (length h) false),
            h ++ [Buffer dt (map (cast_row dt) rows)]).

(** The buffer behind an array. *)
Definition get_buffer (a : ndarray) : M buffer :=
  fun h => match h !! nd_base a with
           | Some b => (Ret b, h)
           | None => (Raise DanglingReference, h)
           end.

(** Reading all the rows of an array, through its view. *)
Definition read_rows (a : ndarray) : M (list rgb) :=
  b <- get_buffer a ;; ret (view (nd_flip a) (buf_rows b)).

(** [a[::-1]]: a view on the same buffer, rows reversed. *)
Definition reversed (a : ndarray) : ndarray :=
  NdArray (nd_base a) (negb (nd_flip a)).

(** [a.shape[0]]. *)
Definition shape0 (a : ndarray) : M nat :=
  rows <- read_rows a ;; ret (length rows).

(** [a[:] = vals]: an in-place store of [vals] into the buffer behind
    [a], element by element through the view, each element converted to
    the buffer's dtype.  [vals] must have as many rows as [a], or a single
    row that is broadcast.  (An array with no rows is taken to be the
    one-dimensional empty array, as [np.array([])] is.) *)
Definition broadcast_error : exn :=
  ValueError "could not broadcast input array".

Definition setitem_all (a : ndarray) (vals : list rgb) : M unit :=
  b <- get_buffer a ;;
  let n := length (buf_rows b) in
  let store (vs : list rgb) : M unit := fun h =>
    (Ret tt,
     <[nd_base a := Buffer (buf_dtype b)
                      (view (nd_flip a) (map (cast_row (buf_dtype b)) vs))]> h) in
  if (length vals =? n)%nat then store vals
  else match vals with
       | [v] => store (repeat v n)
       | _ => raise broadcast_error
       end.

(** [np.linspace(start, stop, n)] (with [endpoint=True]): the samples
    [start + i * step], [step = (stop - start) / (n - 1)], the last one
    being set to [stop] itself. *)
Definition linspace (start stop : num) (n : nat) : list num :=
  let delta := stop - start in
  let step := delta / num_of_nat (n - 1) in
  let y := map (fun i => if (n - 1 =? 0)%nat
                         then num_of_nat i * delta + start
                         else num_of_nat i * step + start) (seq 0 n) in
  if (1 <? n)%nat then <[(n - 1)%nat := stop]> y else y.

(** [p[0]] and [p[-1]] on a one-dimensional array. *)
Definition index_first (p : list num) : M num :=
  match p with
  | x :: _ => ret x
  | [] => raise IndexError
  end.

Definition index_last (p : list num) : M num :=
  match list.last p with
  | Some x => ret x
  | None => raise IndexError
  end.

(** ** The colormap object *)

(** One row [(x, y0, y1)] of a channel table of the segment data. *)
Abbreviation segment := (num * num * num)%type (only parsing).

Record cdict := Cdict {
  red : list segment;
  green : list segment;
  blue : list segment
}.

(** [matplotlib.colors.LinearSegmentedColormap(name, segmentdata, N)]:
    the constructor stores its arguments. *)
Record LinearSegmentedColormap := Cmap {
  cmap_name : string;
  segmentdata : cdict;
  cmap_N : Z
}.

(** ** [create_colormap] *)

Inductive colors_arg :=
| ColorsList (rows : list rgb)       (* a list of tuples *)
| ColorsArray (a : ndarray).         (* an [np.ndarray] *)

(** The function only reads [position]; a position array is carried by
    its contents. *)
Inductive position_arg :=
| PositionNone
| PositionList (p : list num)        (* a list of numbers *)
| PositionArray (p : list num).      (* a one-dimensional [np.ndarray] *)

Definition div255 (c : rgb) : rgb :=
  let '(r, g, b) := c in
  (r / num_of_Z 255, g / num_of_Z 255, b / num_of_Z 255).

(** One turn of the loop over [zip(position, colors)]. *)
Definition append_anchor (cd : cdict) (pc : num * rgb) : cdict :=
  let '(pos, (c0, c1, c2)) := pc in
  {| red := red cd ++ [(pos, c0, c0)];
     green := green cd ++ [(pos, c1, c1)];
     blue := blue cd ++ [(pos, c2, c2)] |}.

Definition length_error : exn :=
  ValueError "position length must be the same as colors".
Definition endpoint_error : exn :=
  ValueError "position must start with 0 and end with 1".

Definition default_name : string := "custom_colormap".

Definition create_colormap (colors : colors_arg) (position : position_arg)
    (bit reverse : bool) (name : string) : M LinearSegmentedColormap :=
  colors <- match colors with
            | ColorsArray a => ret a
            | ColorsList rows => np_array DFloat rows
            end ;;
  let colors := if reverse then reversed colors else colors in
  position <-
    match position with
    | PositionList p => ret p
    | PositionNone => n <- shape0 colors ;; ret (linspace 0 1 n)
    | PositionArray p =>
        n <- shape0 colors ;;
        if negb (length p =? n)%nat then raise length_error
        else
          p0 <- index_first p ;;
          if negb (isclose p0 0) then
            pl <- index_last p ;;
            if negb (isclose pl 1) then raise endpoint_error else ret p
          else ret p
    end ;;
  (if bit
   then rows <- read_rows colors ;; setitem_all colors (map div255 rows)
   else ret tt) ;;;
  rows <- read_rows colors ;;
  let cd := fold_left append_anchor (combine position rows) (Cdict [] [] []) in
  ret (Cmap name cd 256).

(** ** Observations used in the statements *)

(** The anchor points [(position, colour)] carried by the three channel
    tables: entry [i] of each table, the position taken from the red
    table and each channel's value from the left limit [y0]. *)
Abbreviation anchor := (num * rgb)%type (only parsing).

Fixpoint anchors_of (r g b : list segment) : list anchor :=
  match r, g, b with
  | (x, r0, _) :: r', (_, g0, _) :: g', (_, b0, _) :: b' =>
      (x, (r0, g0, b0)) :: anchors_of r' g' b'
  | _, _, _ => []
  end.

Definition anchors (m : LinearSegmentedColormap) : list anchor :=
  let cd := segmentdata m in anchors_of (red cd) (green cd) (blue cd).

(** The positions listed by one channel table. *)
Definition table_positions (t : list segment) : list num :=
  map (fun s : segment => s.1.1) t.

(** A table entry is continuous when its two limits agree. *)
Definition continuous (s : segment) : Prop := s.1.2 = s.2.

(** The segment data that a list of anchors gives rise to. *)
Definition cdict_of_anchors (zs : list anchor) : cdict :=
  {| red := map (fun '(pos, (c0, _, _)) => (pos, c0, c0)) zs;
     green := map (fun '(pos, (_, c1, _)) => (pos, c1, c1)) zs;
     blue := map (fun '(pos, (_, _, c2)) => (pos, c2, c2)) zs |}.

(** The colour sequence as the caller sees it before the call, with the
    dtype it is stored in ([None] for a reference to no buffer). *)
Definition colors_rows (h : heap) (colors : colors_arg)
  : option (dtype * list rgb) :=
  match colors with
  | ColorsList rows => Some (DFloat, rows)
  | ColorsArray a =>
      b ← h !! nd_base a; Some (buf_dtype b, view (nd_flip a) (buf_rows b))
  end.

(** ** Decidable equality, for evaluating the model on concrete inputs *)

#[global] Instance dtype_eq_dec : EqDecision dtype.
Proof. solve_decision. Defined.
#[global] Instance buffer_eq_dec : EqDecision buffer.
Proof. solve_decision. Defined.
#[global] Instance exn_eq_dec : EqDecision exn.
Proof. solve_decision. Defined.
#[global] Instance outcome_eq_dec {A} `{EqDecision A} : EqDecision (outcome A).
Proof. solve_decision. Defined.
#[global] Instance cdict_eq_dec : EqDecision cdict.
Proof. solve_decision. Defined.
#[global] Instance cmap_eq_dec : EqDecision LinearSegmentedColormap.
Proof. solve_decision. Defined.

Ltac by_evaluation := apply (bool_decide_unpack _); vm_compute; exact I.

(** Numerals of the examples. *)
Definition frac (a : Z) (b : positive) : num := Q2Qc (a # b).
Definition int (a : Z) : num := num_of_Z a.

(** ** [colormap_tuple] *)

(** What [np.genfromtxt] hands back: a two-dimensional array for a file of
    several rows, a one-dimensional one for a single row (or an empty
    file), a zero-dimensional one for a single number. *)
Inductive table :=
| Table0 (x : num)
| Table1 (xs : list num)
| Table2 (rows : list (list num)).

(** [txt_array.shape[0]]. *)
Definition table_shape0 (t : table) : M nat :=
  match t with
  | Table0 _ => raise IndexError
  | Table1 xs => ret (length xs)
  | Table2 rows => ret (length rows)
  end.

(** [txt_array[i, j]]. *)
Definition table_item (t : table) (i j : nat) : M num :=
  match t with
  | Table2 rows =>
      match rows !! i ≫= (fun row => row !! j) with
      | Some x => ret x
      | None => raise IndexError
      end
  | _ => raise IndexError
  end.

(** A list comprehension whose element expression may raise. *)
Fixpoint comprehension {A B} (f : A -> M B) (l : list A) : M (list B) :=
  match l with
  | [] => ret []
  | x :: l' => y <- f x ;; ys <- comprehension f l' ;; ret (y :: ys)
  end.

(** [[tuple((txt_array[i,0], txt_array[i,1], txt_array[i,2]))
      for i in range(0, txt_array.shape[0])]]. *)
Definition table_tuples (t : table) : M (list rgb) :=
  n <- table_shape0 t ;;
  comprehension (fun i => r <- table_item t i 0 ;;
                          g <- table_item t i 1 ;;
                          b <- table_item t i 2 ;;
                          ret (r, g, b)) (seq 0 n).

(** The two kinds of value [colormap_tuple] returns. *)
Inductive tuples_or_cmap :=
| Tuples (l : list rgb)
| Colormap (m : LinearSegmentedColormap).

Section Loader.

(** [np.genfromtxt(RGB_file, skip_header, skip_footer, delimiter)], a
    function of the file system, which the calls compared here share. *)
Variable genfromtxt : string -> nat -> nat -> option string -> outcome table.

Definition colormap_tuple (RGB_file : string) (return_tuple return_cmap : bool)
    (headers footers : nat) (delimiter : option string) : M tuples_or_cmap :=
  txt_array <- (fun h => (genfromtxt RGB_file headers footers delimiter, h)) ;;
  if return_cmap then
    l <- table_tuples txt_array ;;
    cmap <- create_colormap (ColorsList l) PositionNone true false default_name ;;
    ret (Colormap cmap)
  else
    l <- table_tuples txt_array ;;
    ret (Tuples l).

End Loader.

(** ** The stages of [create_colormap], as functions of the input *)

(** The rows the loop reads: the caller's rows, reversed on request, and
    with [bit] each channel divided by 255 and stored back in the array's
    dtype. *)
Definition final_rows (dt : dtype) (bit reverse : bool) (rows : list rgb)
  : list rgb :=
  let rows := view reverse rows in
  if bit then map (fun c => cast_row dt (div255 c)) rows else rows.

(** What the position argument resolves to for [n] colours. *)
Definition position_outcome (position : position_arg) (n : nat)
  : outcome (list num) :=
  match position with
  | PositionNone => Ret (linspace 0 1 n)
  | PositionList p => Ret p
  | PositionArray p =>
      if negb (length p =? n)%nat then Raise length_error
      else match p, list.last p with
           | p0 :: _, Some pl =>
               if negb (isclose p0 0) && negb (isclose pl 1)
               then Raise endpoint_error else Ret p
           | _, _ => Raise IndexError
           end
  end.

(** The heap once [colors] has been made an array. *)
Definition heap_converted (h : heap) (colors : colors_arg) : heap :=
  match colors with
  | ColorsList rows => h ++ [Buffer DFloat rows]
  | ColorsArray _ => h
  end.

(** The buffer the function works on. *)
Definition colors_base (h : heap) (colors : colors_arg) : loc :=
  match colors with
  | ColorsList _ => length h
  | ColorsArray a => nd_base a
  end.

(** The heap when the call returns. *)
Definition heap_returned (h : heap) (colors : colors_arg) (bit : bool) : heap :=
  let h1 := heap_converted h colors in
  if bit then
    match h1 !! colors_base h colors with
    | Some b =>
        <[colors_base h colors :=
            Buffer (buf_dtype b)
              (map (fun c => cast_row (buf_dtype b) (div255 c)) (buf_rows b))]> h1
    | None => h1
    end
  else h1.

(** ** Inputs of the examples *)

(** The colours of the module's own examples. *)
Definition red_blue_8bit : list rgb :=
  [(int 255, int 0, int 0); (int 0, int 0, int 255)].

Definition white_maroon : list rgb :=
  [(int 1, int 1, int 1); (frac 1 2, int 0, int 0)].

Definition brown_white_teal : list rgb :=
  [(frac 2 5, frac 1 5, int 0); (int 1, int 1, int 1);
   (int 0, frac 3 10, frac 2 5)].

(** An 8-bit colour table with a mid-range channel. *)
Definition orange_blue_8bit : list rgb :=
  [(int 255, int 128, int 0); (int 0, int 0, int 255)].

(** The first array of a heap. *)
Definition first_array : ndarray := NdArray 0%nat false.

(** The tuple made of the first three columns of a row of the table. *)
Definition first_three (row : list num) : option rgb :=
  match row with
  | r :: g :: b :: _ => Some (r, g, b)
  | _ => None
  end.

(** A loader for the examples: whatever the file, the 8-bit table
    (255, 128, 0), (0, 0, 255). *)
Definition orange_blue_file
    (RGB_file : string) (headers footers : nat) (delimiter : option string)
  : outcome table :=
  Ret (Table2 [[int 255; int 128; int 0]; [int 0; int 0; int 255]]).

(** ** Predicates on colours *)

(** The three channels of a colour. *)
Definition channels (c : rgb) : list num :=
  let '(r, g, b) := c in [r; g; b].

(** A function applied to each channel. *)
Definition map_rgb (f : num -> num) (c : rgb) : rgb :=
  let '(r, g, b) := c in (f r, f g, f b).

(** An integer 8-bit intensity. *)
Definition eight_bit (x : num) : Prop :=
  exists z : Z, (0 <= z <= 255)%Z /\ x = num_of_Z z.

(** What an integer array keeps of an 8-bit intensity divided by 255. *)
Definition full_or_nothing (x : num) : num :=
  if decide (x = num_of_Z 255) then 1 else 0.

(** Every channel of a colour lies between [lo] and [hi]. *)
Definition within (lo hi : num) (c : rgb) : Prop :=
  Forall (fun x => lo <= x /\ x <= hi) (channels c).

(** Positions that start at 0, end at 1 and increase strictly: what the
    plotting library asks of a channel table. *)
Definition spans_unit (p : list num) : Prop :=
  head p = Some 0
  /\ list.last p = Some 1
  /\ forall (i : nat) (x y : num),
       p !! i = Some x -> p !! S i = Some y -> x < y.

(** ** [NCAR_RGB_pull] *)

(** [s.split(sep)] for a separator of one character: the pieces between
    the occurrences of [sep], empty pieces included. *)
Fixpoint split (sep : ascii) (s : string) : list string :=
  match s with
  | EmptyString => [EmptyString]
  | String c s' =>
      if Ascii.eqb c sep then EmptyString :: split sep s'
      else match split sep s' with
           | x :: xs => String c x :: xs
           | [] => [String c EmptyString]
           end
  end.

(** Whether a character occurs in a string. *)
Fixpoint occurs (c : ascii) (s : string) : bool :=
  match s with
  | EmptyString => false
  | String c' s' => Ascii.eqb c' c || occurs c s'
  end.

Definition slash : ascii := "/"%char.
Definition newline : string := String (Ascii.ascii_of_nat 10) EmptyString.

Definition address : string :=
  "https://www.ncl.ucar.edu/Document/Graphics/ColorTables/Files/".

(** What the function acts on: the files, by the path they are opened
    with, and the lines printed so far. *)
Record world := World {
  files : gmap string string;
  stdout : list string
}.

Inductive io_exn :=
| RequestException            (* raised by [requests.get] *)
| OSError (path : string)     (* raised by [open] *)
| NoLastItem.                 (* [l[-1]] on an empty list *)

Inductive io_outcome :=
| Done
| Failed (e : io_exn).

Section Fetcher.

(** [requests.get(url, stream=True)]: the raw body of the response, or
    [None] when the request raises. *)
Variable requests_get : string -> option string.

(** Whether [open(path, 'wb')] succeeds. *)
Variable open_wb : string -> bool.

(** [os.getcwd()]. *)
Variable getcwd : string.

Definition NCAR_RGB_pull (cmap_name : string) (save_loc : option string)
    (w : world) : io_outcome * world :=
  let url := address +:+ cmap_name in
  match list.last (split slash url) with
  | None => (Failed NoLastItem, w)
  | Some local_filename =>
      let path := match save_loc with
                  | None => local_filename
                  | Some dir => dir +:+ local_filename
                  end in
      let shown := match save_loc with
                   | None => getcwd
                   | Some dir => dir
                   end in
      match requests_get url with
      | None => (Failed RequestException, w)
      | Some raw =>
          if open_wb path then
            (Done,
             {| files := <[path := raw]> (files w);
                stdout := stdout w
                          ++ ["Download complete for : " +:+ local_filename;
                              "File saved in : " +:+ newline +:+ shown] |})
          else (Failed (OSError path), w)
      end
  end.

End Fetcher.

(** * Properties *)

(** ** Lists, views and numbers *)

Lemma view_length {A} (f : bool) (l : list A) : length (view f l) = length l.
Proof. destruct f; simpl; [apply length_rev | reflexivity]. Qed.

Lemma view_view {A} (f : bool) (l : list A) : view f (view f l) = l.
Proof. destruct f; simpl; [apply rev_involutive | reflexivity]. Qed.

Lemma view_negb {A} (f : bool) (l : list A) : view (negb f) l = rev (view f l).
Proof. destruct f; simpl; [symmetry; apply rev_involutive | reflexivity]. Qed.

Lemma view_map {A B} (g : A -> B) (f : bool) (l : list A) :
  view f (map g l) = map g (view f l).
Proof. destruct f; simpl; [symmetry; apply map_rev | reflexivity]. Qed.

Lemma cast_row_float (c : rgb) : cast_row DFloat c = c.
Proof. by destruct c as [[r g] b]. Qed.

Lemma map_cast_row_float (l : list rgb) : map (cast_row DFloat) l = l.
Proof.
  induction l as [|c l IH]; simpl; [done|]. by rewrite cast_row_float, IH.
Qed.

Lemma num_of_nat_nonzero (n : nat) : n <> 0%nat -> num_of_nat n <> 0.
Proof.
  intros Hn Heq. apply Hn.
  assert (H : inject_Z (Z.of_nat n) == 0%Q).
  { apply (f_equal this) in Heq. simpl in Heq.
    rewrite <- (Qred_correct (inject_Z (Z.of_nat n))). rewrite Heq. reflexivity. }
  unfold Qeq in H. simpl in H. lia.
Qed.

Lemma linspace_length (a b : num) (n : nat) : length (linspace a b n) = n.
Proof.
  unfold linspace. destruct (1 <? n)%nat.
  - rewrite length_insert, length_map. apply length_seq.
  - rewrite length_map. apply length_seq.
Qed.

(** From two samples on, [linspace 0 1 n] is the list of the fractions
    [i / (n - 1)]. *)
Lemma linspace_unit (n : nat) :
  (2 <= n)%nat ->
  linspace 0 1 n
  = map (fun i => num_of_nat i / num_of_nat (n - 1)) (seq 0 n).
Proof.
  intros Hn. unfold linspace.
  assert (Hd : num_of_nat (n - 1) <> 0) by (apply num_of_nat_nonzero; lia).
  destruct (Nat.ltb_spec 1 n) as [_|]; [|lia].
  destruct (Nat.eqb_spec (n - 1) 0) as [|_]; [lia|].
  apply list_eq. intros i.
  change (@map nat num) with (@fmap list _ nat num).
  destruct (decide (i = n - 1)%nat) as [->|Hi].
  - rewrite list_lookup_insert_eq
      by (rewrite length_fmap, length_seq; lia).
    rewrite list_lookup_fmap, lookup_seq_lt by lia. simpl.
    f_equal. field. exact Hd.
  - rewrite list_lookup_insert_ne by congruence.
    rewrite !list_lookup_fmap. destruct (seq 0 n !! i); simpl; [|done].
    f_equal. field. exact Hd.
Qed.

(** ** The loop that fills the channel tables *)

Lemma fold_append_anchor (zs : list anchor) (cd : cdict) :
  fold_left append_anchor zs cd
  = {| red := red cd ++ red (cdict_of_anchors zs);
       green := green cd ++ green (cdict_of_anchors zs);
       blue := blue cd ++ blue (cdict_of_anchors zs) |}.
Proof.
  revert cd. induction zs as [|[pos [[c0 c1] c2]] zs IH]; intros cd; simpl.
  - rewrite !app_nil_r. by destruct cd.
  - rewrite IH. simpl. by rewrite <- !app_assoc.
Qed.

Lemma loop_cdict (zs : list anchor) :
  fold_left append_anchor zs (Cdict [] [] []) = cdict_of_anchors zs.
Proof. rewrite fold_append_anchor. reflexivity. Qed.

Lemma anchors_cdict_of (name : string) (zs : list anchor) (n : Z) :
  anchors (Cmap name (cdict_of_anchors zs) n) = zs.
Proof.
  unfold anchors. simpl.
  induction zs as [|[pos [[c0 c1] c2]] zs IH]; simpl; [done|]. by rewrite IH.
Qed.

(** ** The monad *)

Lemma bind_ret {A B} (m : M A) (k : A -> M B) (h h' : heap) (a : A) :
  m h = (Ret a, h') -> bind m k h = k a h'.
Proof. unfold bind. by intros ->. Qed.

Lemma bind_raise {A B} (m : M A) (k : A -> M B) (h h' : heap) (e : exn) :
  m h = (Raise e, h') -> bind m k h = (Raise e, h').
Proof. unfold bind. by intros ->. Qed.

Lemma read_rows_ok (a : ndarray) (h : heap) (b : buffer) :
  h !! nd_base a = Some b ->
  read_rows a h = (Ret (view (nd_flip a) (buf_rows b)), h).
Proof. intros Hb. unfold read_rows, bind, get_buffer, ret. by rewrite Hb. Qed.

Lemma shape0_ok (a : ndarray) (h : heap) (b : buffer) :
  h !! nd_base a = Some b ->
  shape0 a h = (Ret (length (buf_rows b)), h).
Proof.
  intros Hb. unfold shape0.
  rewrite (bind_ret _ _ _ _ _ (read_rows_ok a h b Hb)).
  unfold ret. by rewrite view_length.
Qed.

Lemma setitem_all_ok (a : ndarray) (vals : list rgb) (h : heap) (b : buffer) :
  h !! nd_base a = Some b ->
  length vals = length (buf_rows b) ->
  setitem_all a vals h
  = (Ret tt,
     <[nd_base a := Buffer (buf_dtype b)
                      (view (nd_flip a) (map (cast_row (buf_dtype b)) vals))]> h).
Proof.
  intros Hb Hlen. unfold setitem_all, bind, get_buffer. rewrite Hb.
  by rewrite Hlen, Nat.eqb_refl.
Qed.

(** ** [create_colormap], stage by stage *)

Lemma view_reverse_flip {A} (a : ndarray) (reverse : bool) (l : list A) :
  view (nd_flip (if reverse then reversed a else a)) l
  = view reverse (view (nd_flip a) l).
Proof. destruct reverse; simpl; [apply view_negb | reflexivity]. Qed.

Lemma base_reverse (a : ndarray) (reverse : bool) :
  nd_base (if reverse then reversed a else a) = nd_base a.
Proof. by destruct reverse. Qed.

(** The function from the point where [colors] is an array [a] of the
    heap: position, normalisation, loop. *)
Lemma create_colormap_array (a : ndarray) (position : position_arg)
    (bit reverse : bool) (name : string) (h : heap) (b : buffer) :
  h !! nd_base a = Some b ->
  create_colormap (ColorsArray a) position bit reverse name h
  = match position_outcome position (length (buf_rows b)) with
    | Raise e => (Raise e, h)
    | Ret p =>
        (Ret (Cmap name
                (cdict_of_anchors
                   (combine p (final_rows (buf_dtype b) bit reverse
                                 (view (nd_flip a) (buf_rows b))))) 256),
         heap_returned h (ColorsArray a) bit)
    end.
Proof.
  intros Hb. unfold create_colormap.
  rewrite (bind_ret _ _ h h a) by reflexivity.
  set (a' := if reverse then reversed a else a).
  assert (Hb' : h !! nd_base a' = Some b) by (unfold a'; by rewrite base_reverse).
  assert (Hview : forall l : list rgb,
             view (nd_flip a') l = view reverse (view (nd_flip a) l))
    by (intros l; apply view_reverse_flip).
  assert (Hbase : nd_base a' = nd_base a) by apply base_reverse.
  match goal with |- bind ?P _ _ = _ =>
    assert (Hpos : P h = (position_outcome position (length (buf_rows b)), h))
  end.
  { destruct position as [|p|p]; simpl.
    - by rewrite (bind_ret _ _ _ _ _ (shape0_ok a' h b Hb')).
    - reflexivity.
    - rewrite (bind_ret _ _ _ _ _ (shape0_ok a' h b Hb')).
      destruct (negb (length p =? length (buf_rows b))%nat); [reflexivity|].
      destruct p as [|p0 p]; [reflexivity|].
      unfold index_first. rewrite (bind_ret _ _ h h p0) by reflexivity.
      destruct (list.last (p0 :: p)) as [pl|] eqn:Hl.
      + destruct (negb (isclose p0 0)); simpl; [|reflexivity].
        unfold index_last. rewrite Hl.
        rewrite (bind_ret _ _ h h pl) by reflexivity.
        by destruct (negb (isclose pl 1)).
      + by apply last_None in Hl. }
  destruct (position_outcome position (length (buf_rows b))) as [p|e];
    [|by apply bind_raise].
  rewrite (bind_ret _ _ _ _ _ Hpos). clear Hpos.
  match goal with |- bind ?B _ _ = _ =>
    assert (Hbit : B h = (Ret tt, heap_returned h (ColorsArray a) bit))
  end.
  { unfold heap_returned. simpl. destruct bit; [|reflexivity].
    rewrite (bind_ret _ _ _ _ _ (read_rows_ok a' h b Hb')).
    rewrite (setitem_all_ok a' _ h b Hb')
      by (by rewrite length_map, view_length).
    rewrite Hb, Hbase. do 3 f_equal.
    rewrite map_map, view_map, view_view. reflexivity. }
  rewrite (bind_ret _ _ _ _ _ Hbit). clear Hbit.
  set (b2 := if bit
             then Buffer (buf_dtype b)
                    (map (fun c => cast_row (buf_dtype b) (div255 c)) (buf_rows b))
             else b).
  assert (Hb2 : heap_returned h (ColorsArray a) bit !! nd_base a' = Some b2).
  { unfold heap_returned, b2. simpl. rewrite Hbase.
    destruct bit; [|exact Hb]. rewrite Hb.
    apply list_lookup_insert_eq. by eapply lookup_lt_Some. }
  rewrite (bind_ret _ _ _ _ _ (read_rows_ok a' _ b2 Hb2)).
  unfold ret. rewrite loop_cdict. do 4 f_equal.
  rewrite Hview. unfold final_rows, b2.
  destruct bit; simpl; [|reflexivity]. by rewrite <- !view_map.
Qed.

(** A list of tuples is first copied into a fresh floating-point array. *)
Lemma create_colormap_list (rows : list rgb) (position : position_arg)
    (bit reverse : bool) (name : string) (h : heap) :
  create_colormap (ColorsList rows) position bit reverse name h
  = create_colormap (ColorsArray (NdArray (length h) false)) position
      bit reverse name (h ++ [Buffer DFloat rows]).
Proof.
  unfold create_colormap at 1.
  erewrite bind_ret
    by (unfold np_array; rewrite map_cast_row_float; reflexivity).
  unfold create_colormap. by erewrite (bind_ret (ret _)) by reflexivity.
Qed.

Lemma lookup_fresh (h : heap) (b : buffer) : (h ++ [b]) !! length h = Some b.
Proof. by apply list_lookup_middle. Qed.

(** The whole function, for a colour sequence [rows] stored as [dt]. *)
Lemma create_colormap_stages (h : heap) (colors : colors_arg)
    (position : position_arg) (bit reverse : bool) (name : string)
    (dt : dtype) (rows : list rgb) :
  colors_rows h colors = Some (dt, rows) ->
  create_colormap colors position bit reverse name h
  = match position_outcome position (length rows) with
    | Raise e => (Raise e, heap_converted h colors)
    | Ret p =>
        (Ret (Cmap name
                (cdict_of_anchors
                   (combine p (final_rows dt bit reverse rows))) 256),
         heap_returned h colors bit)
    end.
Proof.
  intros Hc. destruct colors as [rows0|a]; simpl in Hc.
  - injection Hc as <- <-. rewrite create_colormap_list.
    rewrite (create_colormap_array (NdArray (length h) false) _ _ _ _
               (h ++ [Buffer DFloat rows0]) _ (lookup_fresh h _)).
    reflexivity.
  - destruct (h !! nd_base a) as [b|] eqn:Hb; simpl in Hc; [|done].
    injection Hc as <- <-. rewrite (create_colormap_array _ _ _ _ _ _ _ Hb).
    by rewrite view_length.
Qed.

(** A reference to no buffer makes every path of the function fail. *)
Lemma create_colormap_dangling (a : ndarray) (position : position_arg)
    (bit reverse : bool) (name : string) (h : heap) :
  h !! nd_base a = None ->
  create_colormap (ColorsArray a) position bit reverse name h
  = (Raise DanglingReference, h).
Proof.
  intros Hb. unfold create_colormap.
  rewrite (bind_ret _ _ h h a) by reflexivity.
  set (a' := if reverse then reversed a else a).
  assert (Hb' : h !! nd_base a' = None) by (unfold a'; by rewrite base_reverse).
  assert (Hread : read_rows a' h = (Raise DanglingReference, h))
    by (unfold read_rows, bind, get_buffer; by rewrite Hb').
  assert (Hshape : shape0 a' h = (Raise DanglingReference, h))
    by (unfold shape0; by apply bind_raise).
  destruct position as [|p|p].
  - apply bind_raise. by apply bind_raise.
  - rewrite (bind_ret _ _ h h p) by reflexivity.
    destruct bit.
    + apply bind_raise. by apply bind_raise.
    + rewrite (bind_ret _ _ h h tt) by reflexivity. by apply bind_raise.
  - apply bind_raise. by apply bind_raise.
Qed.

(** Whenever the function returns, it went through the stages above. *)
Lemma create_colormap_returns (h h' : heap) (colors : colors_arg)
    (position : position_arg) (bit reverse : bool) (name : string)
    (m : LinearSegmentedColormap) :
  create_colormap colors position bit reverse name h = (Ret m, h') ->
  exists dt rows p,
    colors_rows h colors = Some (dt, rows)
    /\ position_outcome position (length rows) = Ret p
    /\ m = Cmap name
             (cdict_of_anchors (combine p (final_rows dt bit reverse rows))) 256
    /\ h' = heap_returned h colors bit.
Proof.
  intros Hrun.
  destruct (colors_rows h colors) as [[dt rows]|] eqn:Hc.
  - rewrite (create_colormap_stages _ _ _ _ _ _ _ _ Hc) in Hrun.
    destruct (position_outcome position (length rows)) as [p|e] eqn:Hp;
      [|discriminate].
    injection Hrun as <- <-. by exists dt, rows, p.
  - destruct colors as [rows|a]; simpl in Hc; [discriminate|].
    destruct (h !! nd_base a) eqn:Hb; simpl in Hc; [discriminate|].
    rewrite create_colormap_dangling in Hrun by done. discriminate.
Qed.

Lemma final_rows_length (dt : dtype) (bit reverse : bool) (rows : list rgb) :
  length (final_rows dt bit reverse rows) = length rows.
Proof.
  unfold final_rows. destruct bit; [rewrite length_map|]; apply view_length.
Qed.

Lemma final_rows_reverse (dt : dtype) (bit : bool) (rows : list rgb) :
  final_rows dt bit true rows = rev (final_rows dt bit false rows).
Proof. unfold final_rows. simpl. destruct bit; [apply map_rev | reflexivity]. Qed.

Lemma combine_fst {A B} (l : list A) (k : list B) :
  (length l <= length k)%nat -> map fst (combine l k) = l.
Proof.
  revert k. induction l as [|x l IH]; intros [|y k] Hlen; simpl in *;
    try reflexivity; try lia.
  f_equal. apply IH. lia.
Qed.

Lemma combine_snd {A B} (l : list A) (k : list B) :
  (length k <= length l)%nat -> map snd (combine l k) = k.
Proof.
  revert k. induction l as [|x l IH]; intros [|y k] Hlen; simpl in *;
    try reflexivity; try lia.
  f_equal. apply IH. lia.
Qed.


Lemma cdict_of_anchors_continuous (zs : list anchor) :
  Forall continuous (red (cdict_of_anchors zs))
  /\ Forall continuous (green (cdict_of_anchors zs))
  /\ Forall continuous (blue (cdict_of_anchors zs)).
Proof.
  unfold cdict_of_anchors. simpl.
  repeat split; induction zs as [|[pos [[c0 c1] c2]] zs IH]; simpl;
    constructor; done.
Qed.

Lemma cdict_of_anchors_positions (zs : list anchor) :
  table_positions (red (cdict_of_anchors zs)) = map fst zs
  /\ table_positions (green (cdict_of_anchors zs)) = map fst zs
  /\ table_positions (blue (cdict_of_anchors zs)) = map fst zs.
Proof.
  unfold cdict_of_anchors, table_positions. simpl.
  repeat split; rewrite map_map; apply map_ext;
    intros [pos [[c0 c1] c2]]; reflexivity.
Qed.

(** ** Validation of the position argument *)

(** On the array path a position array of the wrong size is refused. *)
Lemma position_array_length_checked (h : heap) (colors : colors_arg)
    (p : list num) (bit reverse : bool) (name : string)
    (dt : dtype) (rows : list rgb) :
  colors_rows h colors = Some (dt, rows) ->
  length p <> length rows ->
  create_colormap colors (PositionArray p) bit reverse name h
  = (Raise length_error, heap_converted h colors).
Proof.
  intros Hc Hlen. rewrite (create_colormap_stages _ _ _ _ _ _ _ _ Hc). simpl.
  destruct (Nat.eqb_spec (length p) (length rows)); [done|reflexivity].
Qed.

(** On the array path, with the sizes equal, the endpoint error is raised
    exactly when the first position is not close to 0 and the last is not
    close to 1. *)
Lemma position_array_endpoint_checked (h : heap) (colors : colors_arg)
    (p : list num) (p0 pl : num) (bit reverse : bool) (name : string)
    (dt : dtype) (rows : list rgb) :
  colors_rows h colors = Some (dt, rows) ->
  length p = length rows ->
  head p = Some p0 -> list.last p = Some pl ->
  (create_colormap colors (PositionArray p) bit reverse name h
   = (Raise endpoint_error, heap_converted h colors)
   <-> isclose p0 0 = false /\ isclose pl 1 = false)
  /\ (isclose p0 0 = true \/ isclose pl 1 = true ->
      exists m h',
        create_colormap colors (PositionArray p) bit reverse name h = (Ret m, h')).
Proof.
  intros Hc Hlen Hp0 Hpl. rewrite (create_colormap_stages _ _ _ _ _ _ _ _ Hc).
  simpl. rewrite Hlen, Nat.eqb_refl. simpl.
  destruct p as [|x p]; [discriminate|]. injection Hp0 as ->. rewrite Hpl.
  destruct (isclose p0 0), (isclose pl 1); simpl.
  1-3: split;
    [split; [intros H; discriminate H | intros [H1 H2]; discriminate]
    | intros _; eauto].
  split; [split; done | intros [H|H]; discriminate].
Qed.

(** C1, at a failing input: three colours with the two positions [0, 1]
    given as a list.  The sizes differ, yet the call raises nothing and
    returns a colormap of two anchors. *)
Theorem C1_list_position_length_unchecked :
  length [int 0; int 1] <> length brown_white_teal
  /\ create_colormap (ColorsList brown_white_teal)
       (PositionList [int 0; int 1]) false false default_name []
     = (Ret (Cmap default_name
               (cdict_of_anchors
                  [(int 0, (frac 2 5, frac 1 5, int 0));
                   (int 1, (int 1, int 1, int 1))]) 256),
        [Buffer DFloat brown_white_teal]).
Proof. split; [simpl; lia | by_evaluation]. Qed.

(** C2, at a failing input: two colours with the two positions
    [1/5, 4/5] given as a list.  Neither endpoint is close to its bound,
    yet the call raises nothing. *)
Theorem C2_list_position_endpoints_unchecked :
  isclose (frac 1 5) 0 = false
  /\ isclose (frac 4 5) 1 = false
  /\ create_colormap (ColorsList white_maroon)
       (PositionList [frac 1 5; frac 4 5]) false false default_name []
     = (Ret (Cmap default_name
               (cdict_of_anchors
                  [(frac 1 5, (int 1, int 1, int 1));
                   (frac 4 5, (frac 1 2, int 0, int 0))]) 256),
        [Buffer DFloat white_maroon]).
Proof. repeat split; by_evaluation. Qed.

(** ** Default positions *)

(** The evenly spaced positions for [n] colours. *)
Lemma anchors_default_positions (h : heap) (colors : colors_arg)
    (bit reverse : bool) (name : string) (dt : dtype) (rows : list rgb) :
  colors_rows h colors = Some (dt, rows) ->
  create_colormap colors PositionNone bit reverse name h
  = (Ret (Cmap name
            (cdict_of_anchors
               (combine (linspace 0 1 (length rows))
                  (final_rows dt bit reverse rows))) 256),
     heap_returned h colors bit).
Proof. intros Hc. by rewrite (create_colormap_stages _ _ _ _ _ _ _ _ Hc). Qed.



(** ** Reversal *)

(** C5: with no explicit positions, the call with [reverse=True] and the
    call with [reverse=False], started on the same colours, both return;
    the anchor colours of the first are those of the second in reverse
    order and the anchor positions are the same. *)
Theorem C5_reverse_flips_colors_only (h : heap) (colors : colors_arg)
    (bit : bool) (name : string) (dt : dtype) (rows : list rgb) :
  colors_rows h colors = Some (dt, rows) ->
  exists m_fwd m_rev h_fwd h_rev,
    create_colormap colors PositionNone bit false name h = (Ret m_fwd, h_fwd)
    /\ create_colormap colors PositionNone bit true name h = (Ret m_rev, h_rev)
    /\ map snd (anchors m_rev) = rev (map snd (anchors m_fwd))
    /\ map fst (anchors m_rev) = map fst (anchors m_fwd)
    /\ map fst (anchors m_rev) = linspace 0 1 (length rows).
Proof.
  intros Hc. eexists _, _, _, _.
  split; [apply (anchors_default_positions _ _ _ _ _ _ _ Hc)|].
  split; [apply (anchors_default_positions _ _ _ _ _ _ _ Hc)|].
  rewrite !anchors_cdict_of.
  rewrite !combine_snd by (by rewrite linspace_length, final_rows_length).
  rewrite !combine_fst by (by rewrite linspace_length, final_rows_length).
  split; [apply final_rows_reverse | done].
Qed.

Lemma C5_reverse_witness :
  exists m_fwd m_rev h_fwd h_rev,
    create_colormap (ColorsArray first_array) PositionNone true false
      default_name [Buffer DFloat orange_blue_8bit] = (Ret m_fwd, h_fwd)
    /\ create_colormap (ColorsArray first_array) PositionNone true true
         default_name [Buffer DFloat orange_blue_8bit] = (Ret m_rev, h_rev)
    /\ map snd (anchors m_rev) = rev (map snd (anchors m_fwd))
    /\ map fst (anchors m_rev) = map fst (anchors m_fwd)
    /\ map fst (anchors m_rev) = linspace 0 1 2.
Proof.
  apply (C5_reverse_flips_colors_only [Buffer DFloat orange_blue_8bit]
           (ColorsArray first_array) true default_name DFloat
           orange_blue_8bit).
  reflexivity.
Defined.

(** ** 8-bit normalisation *)

(** For colours held in floating point (a list of tuples, or a
    floating-point array) every anchor colour is the input colour divided
    by 255. *)
Lemma normalised_in_floating_point (h : heap) (colors : colors_arg)
    (position : position_arg) (reverse : bool) (name : string)
    (rows : list rgb) (p : list num) :
  colors_rows h colors = Some (DFloat, rows) ->
  position_outcome position (length rows) = Ret p ->
  exists m h',
    create_colormap colors position true reverse name h = (Ret m, h')
    /\ anchors m = combine p (map div255 (view reverse rows)).
Proof.
  intros Hc Hp. eexists _, _. split.
  { rewrite (create_colormap_stages _ _ _ _ _ _ _ _ Hc), Hp. reflexivity. }
  rewrite anchors_cdict_of. unfold final_rows. f_equal.
  apply map_ext. intros c. apply cast_row_float.
Qed.

(** C4, at a failing input: an integer array holding the 8-bit colours
    (255, 128, 0) and (0, 0, 255), with [bit=True].  The quotients are
    stored back into the integer array, so the green channel of the first
    anchor is 0 and not 128/255. *)
Theorem C4_integer_array_truncates :
  fst (create_colormap (ColorsArray first_array) PositionNone true false
         default_name [Buffer DInt orange_blue_8bit])
  = Ret (Cmap default_name
           (cdict_of_anchors
              [(int 0, (int 1, int 0, int 0));
               (int 1, (int 0, int 0, int 1))]) 256)
  /\ div255 (int 255, int 128, int 0) = (int 1, frac 128 255, int 0)
  /\ frac 128 255 <> int 0.
Proof. repeat split; by_evaluation. Qed.

(** ** Effects on the caller's arrays *)

(** Without [bit] the heap the caller knows is left as it was: nothing is
    written, and a list of tuples only adds a fresh private array. *)
Lemma heap_kept_without_bit (h : heap) (colors : colors_arg) :
  heap_returned h colors false
  = match colors with
    | ColorsList rows => h ++ [Buffer DFloat rows]
    | ColorsArray _ => h
    end.
Proof. by destruct colors. Qed.


(** C6, at a failing input: the caller's floating-point array holding
    (255, 0, 0) and (0, 0, 255), with [bit=True].  When the call returns,
    the caller's array holds (1, 0, 0) and (0, 0, 1). *)
Theorem C6_array_normalised_in_place :
  snd (create_colormap (ColorsArray first_array) PositionNone true false
         default_name [Buffer DFloat red_blue_8bit])
  = [Buffer DFloat [(int 1, int 0, int 0); (int 0, int 0, int 1)]]
  /\ [Buffer DFloat [(int 1, int 0, int 0); (int 0, int 0, int 1)]]
     <> [Buffer DFloat red_blue_8bit].
Proof. split; by_evaluation. Qed.

(** ** The returned object *)

(** C7: in the colormap a call returns, every entry [(x, y0, y1)] of the
    red, green and blue tables has [y0 = y1]. *)
Theorem C7_tables_continuous (h h' : heap) (colors : colors_arg)
    (position : position_arg) (bit reverse : bool) (name : string)
    (m : LinearSegmentedColormap) :
  create_colormap colors position bit reverse name h = (Ret m, h') ->
  Forall continuous (red (segmentdata m))
  /\ Forall continuous (green (segmentdata m))
  /\ Forall continuous (blue (segmentdata m)).
Proof.
  intros Hrun.
  apply create_colormap_returns in Hrun as (dt & rows & p & _ & _ & -> & _).
  apply cdict_of_anchors_continuous.
Qed.

(** C8: the colormap a call returns has 256 levels and carries the name
    given to the call. *)
Theorem C8_levels_and_name (h h' : heap) (colors : colors_arg)
    (position : position_arg) (bit reverse : bool) (name : string)
    (m : LinearSegmentedColormap) :
  create_colormap colors position bit reverse name h = (Ret m, h') ->
  cmap_N m = 256%Z /\ cmap_name m = name.
Proof.
  intros Hrun.
  apply create_colormap_returns in Hrun as (dt & rows & p & _ & _ & -> & _).
  by split.
Qed.

Lemma C7_tables_continuous_witness :
  let m := Cmap default_name
             (cdict_of_anchors
                (combine [int 0; frac 3 10; int 1] brown_white_teal)) 256 in
  Forall continuous (red (segmentdata m))
  /\ Forall continuous (green (segmentdata m))
  /\ Forall continuous (blue (segmentdata m)).
Proof.
  apply (C7_tables_continuous [] [Buffer DFloat brown_white_teal]
           (ColorsList brown_white_teal)
           (PositionList [int 0; frac 3 10; int 1]) false false default_name).
  by_evaluation.
Defined.

Lemma C8_levels_and_name_witness :
  let m := Cmap "fire"
             (cdict_of_anchors
                (combine [int 0; int 1]
                   [(int 1, int 0, int 0); (int 0, int 0, int 1)])) 256 in
  cmap_N m = 256%Z /\ cmap_name m = "fire".
Proof.
  apply (C8_levels_and_name [] [Buffer DFloat
                                  [(int 1, int 0, int 0); (int 0, int 0, int 1)]]
           (ColorsList red_blue_8bit) PositionNone true false "fire").
  by_evaluation.
Defined.

(** ** Positions given as a list *)



(** ** The table loader *)

(** One element of the comprehension: the first three columns of row
    [i]. *)
Lemma row_tuple (rows : list (list num)) (i : nat) (row : list num)
    (h : heap) :
  rows !! i = Some row ->
  (r <- table_item (Table2 rows) i 0 ;;
   g <- table_item (Table2 rows) i 1 ;;
   b <- table_item (Table2 rows) i 2 ;;
   ret (r, g, b)) h
  = match first_three row with
    | Some c => (Ret c, h)
    | None => (Raise IndexError, h)
    end.
Proof.
  intros Hrow. unfold bind, table_item. rewrite Hrow. simpl.
  by destruct row as [|r [|g [|b rest]]].
Qed.

(** Reading the tuples off a two-dimensional table: every row must have
    its first three columns. *)
Lemma comprehension_rows (pre suf : list (list num)) (h : heap) :
  comprehension
    (fun i => r <- table_item (Table2 (pre ++ suf)) i 0 ;;
              g <- table_item (Table2 (pre ++ suf)) i 1 ;;
              b <- table_item (Table2 (pre ++ suf)) i 2 ;;
              ret (r, g, b))
    (seq (length pre) (length suf)) h
  = match mapM first_three suf with
    | Some l => (Ret l, h)
    | None => (Raise IndexError, h)
    end.
Proof.
  revert pre. induction suf as [|row suf IH]; intros pre; [reflexivity|].
  cbn [length seq comprehension].
  specialize (IH (pre ++ [row])).
  rewrite <- app_assoc, length_app, Nat.add_1_r in IH. simpl app in IH.
  pose proof (row_tuple (pre ++ row :: suf) (length pre) row h
                (list_lookup_middle _ _ _ _ eq_refl)) as Hstep.
  cbn [mapM]. destruct (first_three row) as [c|]; cbn [mbind option_bind].
  - rewrite (bind_ret _ _ _ _ _ Hstep).
    destruct (mapM first_three suf) as [l|].
    + by rewrite (bind_ret _ _ _ _ _ IH).
    + by rewrite (bind_raise _ _ _ _ _ IH).
  - by apply bind_raise.
Qed.

Lemma table_tuples_rows (rows : list (list num)) (h : heap) :
  table_tuples (Table2 rows) h
  = match mapM first_three rows with
    | Some l => (Ret l, h)
    | None => (Raise IndexError, h)
    end.
Proof.
  unfold table_tuples. rewrite (bind_ret _ _ h h (length rows)) by reflexivity.
  apply (comprehension_rows [] rows h).
Qed.

Section RoundTrip.

Variable genfromtxt : string -> nat -> nat -> option string -> outcome table.

(** Asking for the colormap is asking for the tuples and handing them to
    [create_colormap] with [bit=True], whatever the file holds. *)
Lemma colormap_tuple_cmap_unfold (RGB_file : string)
    (return_tuple return_tuple' : bool) (headers footers : nat)
    (delimiter : option string) (h : heap) :
  colormap_tuple genfromtxt RGB_file return_tuple true headers footers
    delimiter h
  = (r <- colormap_tuple genfromtxt RGB_file return_tuple' false headers
            footers delimiter ;;
     match r with
     | Tuples l =>
         m <- create_colormap (ColorsList l) PositionNone true false
                default_name ;;
         ret (Colormap m)
     | Colormap m => ret (Colormap m)
     end) h.
Proof.
  unfold colormap_tuple, bind.
  destruct (genfromtxt RGB_file headers footers delimiter) as [t|e];
    [|reflexivity].
  by destruct (table_tuples t h) as [[l|e] h1].
Qed.

(** C9: for a file that parses to a table of rows of at least three
    columns, [colormap_tuple] returns the list of tuples when asked for
    it, [create_colormap] applied to that list with [bit=True] returns a
    colormap, and [colormap_tuple] asked for the colormap returns that
    same colormap. *)
Theorem C9_loader_round_trip (RGB_file : string)
    (return_tuple return_tuple' : bool) (headers footers : nat)
    (delimiter : option string) (rows : list (list num)) (h : heap) :
  genfromtxt RGB_file headers footers delimiter = Ret (Table2 rows) ->
  Forall (fun row => 3 <= length row)%nat rows ->
  exists l m h',
    colormap_tuple genfromtxt RGB_file return_tuple false headers footers
      delimiter h = (Ret (Tuples l), h)
    /\ create_colormap (ColorsList l) PositionNone true false default_name h
       = (Ret m, h')
    /\ colormap_tuple genfromtxt RGB_file return_tuple' true headers footers
         delimiter h = (Ret (Colormap m), h').
Proof.
  intros Hfile Hrows.
  assert (Hl : exists l, mapM first_three rows = Some l).
  { apply mapM_is_Some. eapply Forall_impl; [exact Hrows|].
    intros [|r [|g [|b rest]]] Hlen; simpl in *; try lia. by eexists. }
  destruct Hl as [l Hl].
  assert (Htuples : forall rt,
             colormap_tuple genfromtxt RGB_file rt false headers footers
               delimiter h = (Ret (Tuples l), h)).
  { intros rt. unfold colormap_tuple, bind. rewrite Hfile.
    by rewrite table_tuples_rows, Hl. }
  exists l. eexists _, _. split; [apply Htuples|].
  split.
  { apply (anchors_default_positions h (ColorsList l) true false
             default_name DFloat l). reflexivity. }
  rewrite (colormap_tuple_cmap_unfold _ _ return_tuple).
  rewrite (bind_ret _ _ _ _ _ (Htuples return_tuple)).
  erewrite bind_ret; [reflexivity|].
  apply (anchors_default_positions h (ColorsList l) true false
           default_name DFloat l). reflexivity.
Qed.

End RoundTrip.

Lemma C9_loader_round_trip_witness :
  exists l m h',
    colormap_tuple orange_blue_file "rgb.txt" true false 0 0 None []
    = (Ret (Tuples l), [])
    /\ create_colormap (ColorsList l) PositionNone true false default_name []
       = (Ret m, h')
    /\ colormap_tuple orange_blue_file "rgb.txt" true true 0 0 None []
       = (Ret (Colormap m), h').
Proof.
  apply (C9_loader_round_trip orange_blue_file "rgb.txt" true true 0 0 None
           [[int 255; int 128; int 0]; [int 0; int 0; int 255]] []).
  - reflexivity.
  - repeat constructor.
Defined.

(** ** The module's own examples *)

(** [create_colormap([(255, 0, 0), (0, 0, 255)], bit=True)]: anchors
    0 -> (1, 0, 0) and 1 -> (0, 0, 1). *)
Example red_blue_8bit_anchors :
  exists m h',
    create_colormap (ColorsList red_blue_8bit) PositionNone true false
      default_name [] = (Ret m, h')
    /\ anchors m = [(int 0, (int 1, int 0, int 0));
                    (int 1, (int 0, int 0, int 1))].
Proof.
  eexists _, _. split.
  - apply (anchors_default_positions [] (ColorsList red_blue_8bit) true false
             default_name DFloat red_blue_8bit). reflexivity.
  - rewrite anchors_cdict_of. by_evaluation.
Qed.

(** [create_colormap([(1, 1, 1), (0.5, 0, 0)])]: anchors 0 -> (1, 1, 1)
    and 1 -> (0.5, 0, 0). *)
Example white_maroon_anchors :
  exists m h',
    create_colormap (ColorsList white_maroon) PositionNone false false
      default_name [] = (Ret m, h')
    /\ anchors m = [(int 0, (int 1, int 1, int 1));
                    (int 1, (frac 1 2, int 0, int 0))].
Proof.
  eexists _, _. split.
  - apply (anchors_default_positions [] (ColorsList white_maroon) false false
             default_name DFloat white_maroon). reflexivity.
  - rewrite anchors_cdict_of. by_evaluation.
Qed.

(** [create_colormap(colors, position=[0, 0.3, 1])] with three colours:
    the anchors are at those positions with those colours, in order. *)
Example brown_white_teal_anchors :
  fst (create_colormap (ColorsList brown_white_teal)
         (PositionList [int 0; frac 3 10; int 1]) false false default_name [])
  = Ret (Cmap default_name
           (cdict_of_anchors
              [(int 0, (frac 2 5, frac 1 5, int 0));
               (frac 3 10, (int 1, int 1, int 1));
               (int 1, (int 0, frac 3 10, frac 2 5))]) 256).
Proof. by_evaluation. Qed.

(** The same positions given as an array pass the two checks. *)
Example brown_white_teal_array_positions :
  fst (create_colormap (ColorsList brown_white_teal)
         (PositionArray [int 0; frac 3 10; int 1]) false false default_name [])
  = fst (create_colormap (ColorsList brown_white_teal)
           (PositionList [int 0; frac 3 10; int 1]) false false default_name []).
Proof. by_evaluation. Qed.

(** A position array of the wrong size, and one with both ends off, are
    refused; one with a single end off is accepted. *)
Example array_positions_checked :
  fst (create_colormap (ColorsList brown_white_teal)
         (PositionArray [int 0; int 1]) false false default_name [])
  = Raise length_error
  /\ fst (create_colormap (ColorsList white_maroon)
            (PositionArray [frac 1 5; frac 4 5]) false false default_name [])
     = Raise endpoint_error
  /\ fst (create_colormap (ColorsList white_maroon)
            (PositionArray [frac 1 5; int 1]) false false default_name [])
     = Ret (Cmap default_name
              (cdict_of_anchors (combine [frac 1 5; int 1] white_maroon)) 256).
Proof. repeat split; by_evaluation. Qed.

(** A second call on the same array with [bit=True] divides once more. *)
Example array_normalised_twice :
  let h := [Buffer DFloat red_blue_8bit] in
  let h1 := snd (create_colormap (ColorsArray first_array) PositionNone true
                   false default_name h) in
  fst (create_colormap (ColorsArray first_array) PositionNone true false
         default_name h1)
  = Ret (Cmap default_name
           (cdict_of_anchors
              [(int 0, (frac 1 255, int 0, int 0));
               (int 1, (int 0, int 0, frac 1 255))]) 256).
Proof. by_evaluation. Qed.

(** * Further properties of the code *)

(** ** [create_colormap]: the checks on a position array *)

Lemma heap_converted_lookup (h : heap) (colors : colors_arg) (l : loc)
    (b : buffer) :
  h !! l = Some b -> heap_converted h colors !! l = Some b.
Proof.
  intros Hl. destruct colors as [rows|a]; simpl; [|exact Hl].
  rewrite lookup_app_l; [exact Hl | by eapply lookup_lt_Some].
Qed.

(** X1: a position array whose size differs from the number of colours
    makes the call raise the length error, whatever the flags, and every
    array of the caller is left as it was (also with [bit=True]: the check
    comes before the normalisation). *)
Theorem X1_array_position_length_refused (h : heap) (colors : colors_arg)
    (p : list num) (bit reverse : bool) (name : string)
    (dt : dtype) (rows : list rgb) :
  colors_rows h colors = Some (dt, rows) ->
  length p <> length rows ->
  let run := create_colormap colors (PositionArray p) bit reverse name h in
  fst run = Raise length_error
  /\ forall (l : loc) (b : buffer), h !! l = Some b -> snd run !! l = Some b.
Proof.
  intros Hc Hlen run. unfold run.
  rewrite (create_colormap_stages _ _ _ _ _ _ _ _ Hc). simpl.
  destruct (Nat.eqb_spec (length p) (length rows)); [done|]. simpl.
  split; [reflexivity|]. intros l b. apply heap_converted_lookup.
Qed.

Lemma X1_array_position_length_witness :
  let run := create_colormap (ColorsArray first_array)
               (PositionArray [int 0; frac 1 2; int 1]) true true default_name
               [Buffer DInt orange_blue_8bit] in
  fst run = Raise length_error
  /\ forall (l : loc) (b : buffer),
       [Buffer DInt orange_blue_8bit] !! l = Some b -> snd run !! l = Some b.
Proof.
  apply (X1_array_position_length_refused [Buffer DInt orange_blue_8bit]
           (ColorsArray first_array) [int 0; frac 1 2; int 1] true true
           default_name DInt orange_blue_8bit).
  - reflexivity.
  - simpl. lia.
Defined.

(** X2: for a position array of the right (non-zero) size, the endpoint
    error is raised exactly when the first position is not close to 0 and
    the last one is not close to 1; in every other case the call returns
    and the anchors sit at the positions given, unchanged and in order. *)
Theorem X2_array_position_endpoints (h : heap) (colors : colors_arg)
    (p : list num) (p0 pl : num) (bit reverse : bool) (name : string)
    (dt : dtype) (rows : list rgb) :
  colors_rows h colors = Some (dt, rows) ->
  length p = length rows ->
  head p = Some p0 ->
  list.last p = Some pl ->
  let run := create_colormap colors (PositionArray p) bit reverse name h in
  (fst run = Raise endpoint_error
   <-> isclose p0 0 = false /\ isclose pl 1 = false)
  /\ (isclose p0 0 = true \/ isclose pl 1 = true ->
      exists m, fst run = Ret m /\ map fst (anchors m) = p).
Proof.
  intros Hc Hlen Hp0 Hpl run. unfold run.
  rewrite (create_colormap_stages _ _ _ _ _ _ _ _ Hc).
  simpl. rewrite Hlen, Nat.eqb_refl. simpl.
  destruct p as [|x p]; [discriminate|]. injection Hp0 as ->. rewrite Hpl.
  assert (Hfst : map fst (combine (p0 :: p) (final_rows dt bit reverse rows))
                 = p0 :: p)
    by (apply combine_fst; rewrite final_rows_length; lia).
  destruct (isclose p0 0), (isclose pl 1); simpl.
  1-3: split;
    [split; [intros H; discriminate H | intros [H1 H2]; discriminate]
    | intros _; eexists; split; [reflexivity|];
      by rewrite anchors_cdict_of].
  split; [split; done | intros [H|H]; discriminate].
Qed.

Lemma X2_array_position_endpoints_witness :
  let run := create_colormap (ColorsList white_maroon)
               (PositionArray [frac 1 5; int 1]) false false default_name [] in
  (fst run = Raise endpoint_error
   <-> isclose (frac 1 5) 0 = false /\ isclose (int 1) 1 = false)
  /\ (isclose (frac 1 5) 0 = true \/ isclose (int 1) 1 = true ->
      exists m, fst run = Ret m /\ map fst (anchors m) = [frac 1 5; int 1]).
Proof.
  apply (X2_array_position_endpoints [] (ColorsList white_maroon)
           [frac 1 5; int 1] (frac 1 5) (int 1) false false default_name
           DFloat white_maroon); reflexivity.
Defined.

(** X3: with no colours and an empty position array the sizes agree, and
    the call fails on [position[0]] with an IndexError, not with one of
    its two ValueErrors. *)
Theorem X3_empty_position_array_index_error (h : heap) (colors : colors_arg)
    (bit reverse : bool) (name : string) (dt : dtype) :
  colors_rows h colors = Some (dt, []) ->
  fst (create_colormap colors (PositionArray []) bit reverse name h)
  = Raise IndexError.
Proof.
  intros Hc. by rewrite (create_colormap_stages _ _ _ _ _ _ _ _ Hc).
Qed.

Lemma X3_empty_position_array_witness :
  fst (create_colormap (ColorsList []) (PositionArray []) false false
         default_name [])
  = Raise IndexError.
Proof.
  apply (X3_empty_position_array_index_error [] (ColorsList []) false false
           default_name DFloat).
  reflexivity.
Defined.

(** ** [create_colormap]: reversal and positions *)

(** X4: for a list of colours, calling with [reverse=True] gives the same
    result (colormap or exception) as calling with [reverse=False] on the
    reversed list, whatever the position argument and [bit]: explicit
    positions are applied to the colours after the reversal. *)
Theorem X4_reverse_is_reversed_list (h : heap) (rows : list rgb)
    (position : position_arg) (bit : bool) (name : string) :
  fst (create_colormap (ColorsList rows) position bit true name h)
  = fst (create_colormap (ColorsList (rev rows)) position bit false name h).
Proof.
  rewrite (create_colormap_stages h (ColorsList rows) _ _ _ _ DFloat rows)
    by reflexivity.
  rewrite (create_colormap_stages h (ColorsList (rev rows)) _ _ _ _ DFloat
             (rev rows)) by reflexivity.
  rewrite length_rev.
  by destruct (position_outcome position (length rows)).
Qed.






(** ** [create_colormap]: what happens to the caller's arrays *)

(** X7: when the colours are an array, the heap is exactly as before the
    call whenever [bit] is false or the call raises: the only write is the
    normalisation, and it comes after every check. *)
Theorem X7_array_written_only_by_normalisation (h : heap) (a : ndarray)
    (position : position_arg) (bit reverse : bool) (name : string) :
  let run := create_colormap (ColorsArray a) position bit reverse name h in
  bit = false \/ (exists e, fst run = Raise e) ->
  snd run = h.
Proof.
  intros run Hcase. unfold run in *.
  destruct (h !! nd_base a) as [b|] eqn:Hb.
  - rewrite (create_colormap_array _ _ _ _ _ _ _ Hb) in *.
    destruct (position_outcome position (length (buf_rows b))) as [p|e];
      [|reflexivity].
    destruct Hcase as [->|[e He]]; [reflexivity|discriminate].
  - by rewrite create_colormap_dangling.
Qed.

Lemma X7_array_written_witness :
  snd (create_colormap (ColorsArray first_array) PositionNone false true
         default_name [Buffer DInt orange_blue_8bit])
  = [Buffer DInt orange_blue_8bit].
Proof.
  apply (X7_array_written_only_by_normalisation
           [Buffer DInt orange_blue_8bit] first_array PositionNone false true
           default_name).
  left. reflexivity.
Defined.

(** X8: when the colours are a list of tuples, the call only adds one
    array of its own at the end of the heap, whatever the arguments and
    whether it returns or raises; no array of the caller is written. *)
Theorem X8_list_colours_private_copy (h : heap) (rows : list rgb)
    (position : position_arg) (bit reverse : bool) (name : string) :
  exists b,
    snd (create_colormap (ColorsList rows) position bit reverse name h)
    = h ++ [b]
    /\ length (buf_rows b) = length rows.
Proof.
  rewrite (create_colormap_stages h (ColorsList rows) _ _ _ _ DFloat rows)
    by reflexivity.
  destruct (position_outcome position (length rows)) as [p|e]; simpl.
  - unfold heap_returned. simpl. rewrite lookup_fresh.
    destruct bit; [|by eexists].
    eexists. split.
    + rewrite <- (Nat.add_0_r (length h)), insert_app_r. reflexivity.
    + simpl. by rewrite length_map.
  - by eexists.
Qed.

(** X9: when the colours are an array and the call with [bit=True]
    returns, the caller's buffer holds every row divided by 255 (and
    converted back to the buffer's dtype), row by row in storage order
    whatever the view and the [reverse] flag; no other buffer changes. *)
Theorem X9_array_normalised_in_storage_order (h h' : heap) (a : ndarray)
    (position : position_arg) (reverse : bool) (name : string) (b : buffer)
    (m : LinearSegmentedColormap) :
  h !! nd_base a = Some b ->
  create_colormap (ColorsArray a) position true reverse name h = (Ret m, h') ->
  h' !! nd_base a
  = Some (Buffer (buf_dtype b)
            (map (fun c => cast_row (buf_dtype b) (div255 c)) (buf_rows b)))
  /\ length h' = length h
  /\ forall l : loc, l <> nd_base a -> h' !! l = h !! l.
Proof.
  intros Hb Hrun.
  apply create_colormap_returns in Hrun as (_ & _ & _ & _ & _ & _ & ->).
  unfold heap_returned. simpl. rewrite Hb.
  split; [apply list_lookup_insert_eq; by eapply lookup_lt_Some|].
  split; [apply length_insert|].
  intros l Hl. by apply list_lookup_insert_ne.
Qed.

Lemma X9_array_normalised_witness :
  let h := [Buffer DFloat red_blue_8bit] in
  let h' := [Buffer DFloat [(int 1, int 0, int 0); (int 0, int 0, int 1)]] in
  h' !! nd_base first_array
  = Some (Buffer DFloat
            (map (fun c => cast_row DFloat (div255 c)) red_blue_8bit))
  /\ length h' = length h
  /\ forall l : loc, l <> nd_base first_array -> h' !! l = h !! l.
Proof.
  apply (X9_array_normalised_in_storage_order
           [Buffer DFloat red_blue_8bit]
           [Buffer DFloat [(int 1, int 0, int 0); (int 0, int 0, int 1)]]
           first_array PositionNone true default_name
           (Buffer DFloat red_blue_8bit)
           (Cmap default_name
              (cdict_of_anchors
                 [(int 0, (int 0, int 0, int 1));
                  (int 1, (int 1, int 0, int 0))]) 256)).
  - reflexivity.
  - by_evaluation.
Defined.

(** X10: two calls in a row with [bit=True] on the same floating-point
    array both return, and the anchor colours of the second are those of
    the first divided by 255 once more, at the same positions: the
    function is not idempotent on an array. *)
Theorem X10_second_call_divides_again (h : heap) (a : ndarray)
    (reverse : bool) (name : string) (b : buffer) :
  h !! nd_base a = Some b ->
  buf_dtype b = DFloat ->
  exists m1 h1 m2 h2,
    create_colormap (ColorsArray a) PositionNone true reverse name h
    = (Ret m1, h1)
    /\ create_colormap (ColorsArray a) PositionNone true reverse name h1
       = (Ret m2, h2)
    /\ map fst (anchors m2) = map fst (anchors m1)
    /\ map snd (anchors m2) = map div255 (map snd (anchors m1)).
Proof.
  intros Hb Hdt.
  set (norm := fun c : rgb => cast_row (buf_dtype b) (div255 c)).
  set (b1 := Buffer (buf_dtype b) (map norm (buf_rows b))).
  assert (Hnorm : forall l : list rgb, map norm l = map div255 l).
  { intros l. apply map_ext. intros c. unfold norm. rewrite Hdt.
    apply cast_row_float. }
  assert (Hh1 : heap_returned h (ColorsArray a) true
                = <[nd_base a := b1]> h)
    by (unfold heap_returned; simpl; by rewrite Hb).
  assert (Hb1 : (<[nd_base a := b1]> h) !! nd_base a = Some b1)
    by (apply list_lookup_insert_eq; by eapply lookup_lt_Some).
  eexists _, _, _, _. split.
  { rewrite (create_colormap_array _ _ _ _ _ _ _ Hb).
    cbn [position_outcome]. rewrite Hh1. reflexivity. }
  split.
  { rewrite (create_colormap_array _ _ _ _ _ _ _ Hb1). reflexivity. }
  rewrite !anchors_cdict_of. simpl buf_rows. simpl buf_dtype.
  rewrite length_map.
  rewrite !combine_fst, !combine_snd
    by (rewrite linspace_length, final_rows_length, ?view_length, ?length_map;
        done).
  split; [reflexivity|].
  unfold final_rows. fold norm. rewrite !Hnorm.
  by rewrite !view_map.
Qed.

Lemma X10_second_call_witness :
  exists m1 h1 m2 h2,
    create_colormap (ColorsArray first_array) PositionNone true false
      default_name [Buffer DFloat red_blue_8bit] = (Ret m1, h1)
    /\ create_colormap (ColorsArray first_array) PositionNone true false
         default_name h1 = (Ret m2, h2)
    /\ map fst (anchors m2) = map fst (anchors m1)
    /\ map snd (anchors m2) = map div255 (map snd (anchors m1)).
Proof.
  apply (X10_second_call_divides_again [Buffer DFloat red_blue_8bit]
           first_array false default_name (Buffer DFloat red_blue_8bit));
    reflexivity.
Defined.

(** ** [create_colormap]: the values of the anchors *)

(** In an integer array an 8-bit intensity divided by 255 is stored as 1
    for 255 and as 0 for everything below. *)
Lemma eight_bit_in_integer_array (x : num) :
  eight_bit x -> cast DInt (x / num_of_Z 255) = full_or_nothing x.
Proof.
  intros (z & Hz & ->).
  assert (Hall : Forall (fun n : nat =>
                           cast DInt (num_of_nat n / num_of_Z 255)
                           = full_or_nothing (num_of_nat n)) (seq 0 256))
    by by_evaluation.
  rewrite Forall_lookup in Hall.
  specialize (Hall (Z.to_nat z) (Z.to_nat z)).
  unfold num_of_nat in Hall. rewrite Z2Nat.id in Hall by lia.
  apply Hall. apply lookup_seq_lt. lia.
Qed.

(** X11: with [bit=True] on an integer array of 8-bit colours and no
    explicit positions, the call returns and every channel of every
    anchor is 1 where the input was 255 and 0 everywhere else: all the
    intermediate intensities are lost. *)
Theorem X11_integer_array_full_or_nothing (h : heap) (colors : colors_arg)
    (reverse : bool) (name : string) (rows : list rgb) :
  colors_rows h colors = Some (DInt, rows) ->
  Forall (fun c => Forall eight_bit (channels c)) rows ->
  exists m h',
    create_colormap colors PositionNone true reverse name h = (Ret m, h')
    /\ map snd (anchors m) = map (map_rgb full_or_nothing) (view reverse rows).
Proof.
  intros Hc Hrows. eexists _, _. split.
  { apply (anchors_default_positions _ _ _ _ _ _ _ Hc). }
  rewrite anchors_cdict_of.
  rewrite combine_snd by (by rewrite linspace_length, final_rows_length).
  unfold final_rows. apply map_ext_Forall.
  assert (Hview : Forall (fun c => Forall eight_bit (channels c))
                    (view reverse rows))
    by (destruct reverse; simpl; [by apply Forall_rev | done]).
  eapply Forall_impl; [exact Hview|].
  intros [[r g] b] Hc3. simpl in Hc3.
  inversion Hc3 as [|? ? Hr Hc2]; subst.
  inversion Hc2 as [|? ? Hg Hc1]; subst.
  inversion Hc1 as [|? ? Hb _]; subst.
  unfold div255, cast_row, map_rgb.
  by rewrite (eight_bit_in_integer_array r Hr),
    (eight_bit_in_integer_array g Hg), (eight_bit_in_integer_array b Hb).
Qed.

Lemma X11_integer_array_witness :
  exists m h',
    create_colormap (ColorsArray first_array) PositionNone true false
      default_name [Buffer DInt orange_blue_8bit] = (Ret m, h')
    /\ map snd (anchors m)
       = map (map_rgb full_or_nothing) (view false orange_blue_8bit).
Proof.
  apply (X11_integer_array_full_or_nothing [Buffer DInt orange_blue_8bit]
           (ColorsArray first_array) false default_name orange_blue_8bit).
  - reflexivity.
  - repeat constructor;
      [exists 255%Z | exists 128%Z | exists 0%Z
      | exists 0%Z | exists 0%Z | exists 255%Z];
      (split; [lia | reflexivity]).
Defined.

Lemma num_of_Z_canon (z : Z) : num_of_Z z = Qc_of_Z z.
Proof. apply Qc_is_canon. simpl. apply Qred_correct. Qed.

Lemma num_of_nat_lt (i j : nat) : (i < j)%nat -> num_of_nat i < num_of_nat j.
Proof.
  intros Hij. unfold num_of_nat. rewrite !num_of_Z_canon.
  apply (proj1 (Z2Qc_inj_lt _ _)). lia.
Qed.

(** The fractions [i / (n - 1)], [i < n], start at 0, end at 1 and
    increase. *)
Lemma fractions_span_unit (n : nat) :
  (2 <= n)%nat ->
  spans_unit (map (fun i => num_of_nat i / num_of_nat (n - 1)) (seq 0 n)).
Proof.
  intros Hn.
  assert (Hd : num_of_nat (n - 1) <> 0) by (apply num_of_nat_nonzero; lia).
  assert (Hpos : 0 < / num_of_nat (n - 1)).
  { apply Qcinv_pos. apply (num_of_nat_lt 0 (n - 1)). lia. }
  change (@map nat num) with (@fmap list _ nat num).
  repeat split.
  - rewrite head_lookup, list_lookup_fmap, lookup_seq_lt by lia. simpl.
    f_equal. replace (num_of_nat 0) with (Q2Qc 0) by by_evaluation.
    apply Qcmult_0_l.
  - rewrite last_lookup, length_fmap, length_seq.
    rewrite list_lookup_fmap, lookup_seq_lt by lia. simpl.
    f_equal. replace (Init.Nat.pred n) with (n - 1)%nat by lia.
    field. exact Hd.
  - intros i x y Hx Hy.
    rewrite list_lookup_fmap in Hx, Hy.
    destruct (seq 0 n !! i) as [i'|] eqn:Hi; [|discriminate].
    destruct (seq 0 n !! S i) as [j'|] eqn:Hj; [|discriminate].
    apply lookup_seq in Hi as [-> _]. apply lookup_seq in Hj as [-> _].
    simpl in Hx, Hy. injection Hx as <-. injection Hy as <-.
    unfold Qcdiv. apply Qcmult_lt_mono_pos_r; [exact Hpos|].
    apply num_of_nat_lt. lia.
Qed.

(** X12: with no explicit positions and at least two colours, the
    positions listed by each of the three channel tables start at 0, end
    at 1 and increase strictly. *)
Theorem X12_default_tables_span_unit (h : heap) (colors : colors_arg)
    (bit reverse : bool) (name : string) (dt : dtype) (rows : list rgb) :
  colors_rows h colors = Some (dt, rows) ->
  (2 <= length rows)%nat ->
  exists m h',
    create_colormap colors PositionNone bit reverse name h = (Ret m, h')
    /\ spans_unit (table_positions (red (segmentdata m)))
    /\ spans_unit (table_positions (green (segmentdata m)))
    /\ spans_unit (table_positions (blue (segmentdata m))).
Proof.
  intros Hc HN. eexists _, _. split.
  { apply (anchors_default_positions _ _ _ _ _ _ _ Hc). }
  cbn [segmentdata]. set (zs := combine _ _).
  destruct (cdict_of_anchors_positions zs) as (Hr & Hg & Hb).
  rewrite Hr, Hg, Hb.
  assert (Hfst : map fst zs
                 = map (fun i => num_of_nat i / num_of_nat (length rows - 1))
                     (seq 0 (length rows))).
  { unfold zs. rewrite combine_fst
      by (by rewrite linspace_length, final_rows_length).
    by apply linspace_unit. }
  rewrite Hfst. repeat split; by apply fractions_span_unit.
Qed.

Lemma X12_default_tables_witness :
  exists m h',
    create_colormap (ColorsList brown_white_teal) PositionNone false true
      default_name [] = (Ret m, h')
    /\ spans_unit (table_positions (red (segmentdata m)))
    /\ spans_unit (table_positions (green (segmentdata m)))
    /\ spans_unit (table_positions (blue (segmentdata m))).
Proof.
  apply (X12_default_tables_span_unit [] (ColorsList brown_white_teal) false
           true default_name DFloat brown_white_teal).
  - reflexivity.
  - simpl. lia.
Defined.

Lemma combine_snd_firstn {A B} (l : list A) (k : list B) :
  map snd (combine l k) = firstn (length l) k.
Proof.
  revert k. induction l as [|x l IH]; intros [|y k]; simpl; try reflexivity.
  by rewrite IH.
Qed.

Lemma div255_within (c : rgb) :
  within 0 (num_of_Z 255) c -> within 0 1 (div255 c).
Proof.
  assert (Hpos : 0 < / num_of_Z 255) by (apply Qcinv_pos; by_evaluation).
  assert (Hone : num_of_Z 255 * / num_of_Z 255 = 1)
    by (apply Qcmult_inv_r; by_evaluation).
  assert (Hx : forall x : num,
             0 <= x /\ x <= num_of_Z 255 ->
             0 <= x / num_of_Z 255 /\ x / num_of_Z 255 <= 1).
  { intros x [H0 H1]. unfold Qcdiv. split.
    - apply Qcmult_nonneg_nonneg; [exact H0 | by apply Qclt_le_weak].
    - rewrite <- Hone. apply Qcmult_le_mono_nonneg_r;
        [by apply Qclt_le_weak | exact H1]. }
  destruct c as [[r g] b]. unfold within. simpl. intros Hc3.
  inversion Hc3 as [|? ? Hr Hc2]; subst.
  inversion Hc2 as [|? ? Hg Hc1]; subst.
  inversion Hc1 as [|? ? Hb _]; subst.
  repeat constructor; by apply Hx.
Qed.

(** X13: with [bit=True] and colours held in floating point whose
    channels all lie between 0 and 255, every channel of every anchor of
    the returned colormap lies between 0 and 1. *)
Theorem X13_normalised_into_unit_interval (h h' : heap) (colors : colors_arg)
    (position : position_arg) (reverse : bool) (name : string)
    (rows : list rgb) (m : LinearSegmentedColormap) :
  colors_rows h colors = Some (DFloat, rows) ->
  Forall (within 0 (num_of_Z 255)) rows ->
  create_colormap colors position true reverse name h = (Ret m, h') ->
  Forall (within 0 1) (map snd (anchors m)).
Proof.
  intros Hc Hrows Hrun.
  apply create_colormap_returns in Hrun as (dt & rows' & p & Hc' & _ & -> & _).
  rewrite Hc in Hc'. injection Hc' as <- <-.
  rewrite anchors_cdict_of, combine_snd_firstn. apply Forall_take.
  unfold final_rows. apply Forall_map.
  assert (Hview : Forall (within 0 (num_of_Z 255)) (view reverse rows))
    by (destruct reverse; simpl; [by apply Forall_rev | done]).
  eapply Forall_impl; [exact Hview|].
  intros c Hcw. simpl. rewrite cast_row_float. by apply div255_within.
Qed.

Lemma X13_normalised_witness :
  Forall (within 0 1)
    (map snd
       (anchors
          (Cmap default_name
             (cdict_of_anchors
                (combine [int 0; int 1]
                   [(int 1, frac 128 255, int 0); (int 0, int 0, int 1)]))
             256))).
Proof.
  apply (X13_normalised_into_unit_interval []
           [Buffer DFloat
              [(int 1, frac 128 255, int 0); (int 0, int 0, int 1)]]
           (ColorsList orange_blue_8bit) PositionNone false default_name
           orange_blue_8bit).
  - reflexivity.
  - repeat constructor; by_evaluation.
  - by_evaluation.
Defined.

(** ** [create_colormap]: equal calls *)

(** X20: whenever the call with positions given as an array returns, the
    call with the same positions given as a list returns the same colormap
    and leaves the same heap: the two checks are all that tells the two
    paths apart. *)
Theorem X20_accepted_array_as_list (h h' : heap) (colors : colors_arg)
    (p : list num) (bit reverse : bool) (name : string)
    (m : LinearSegmentedColormap) :
  create_colormap colors (PositionArray p) bit reverse name h = (Ret m, h') ->
  create_colormap colors (PositionList p) bit reverse name h = (Ret m, h').
Proof.
  intros Hrun.
  apply create_colormap_returns in Hrun
    as (dt & rows & p' & Hc & Hp & -> & ->).
  rewrite (create_colormap_stages _ _ _ _ _ _ _ _ Hc). simpl.
  assert (p' = p) as ->; [|reflexivity].
  simpl in Hp.
  destruct (negb (length p =? length rows)%nat); [discriminate|].
  destruct p as [|p0 p]; [discriminate|].
  destruct (list.last (p0 :: p)); [|discriminate].
  destruct (negb (isclose p0 0) && negb (isclose q 1)); [discriminate|].
  by injection Hp.
Qed.

Lemma X20_accepted_array_witness :
  create_colormap (ColorsList white_maroon) (PositionList [frac 1 5; int 1])
    false false default_name []
  = (Ret (Cmap default_name
            (cdict_of_anchors (combine [frac 1 5; int 1] white_maroon)) 256),
     [Buffer DFloat white_maroon]).
Proof.
  apply (X20_accepted_array_as_list [] [Buffer DFloat white_maroon]
           (ColorsList white_maroon) [frac 1 5; int 1] false false
           default_name).
  by_evaluation.
Defined.

(** X21: passing the reversed view [a[::-1]] of an array together with
    [reverse=True] is the same call as passing [a] with [reverse=False]:
    same result and same final heap, whatever the other arguments. *)
Theorem X21_reversed_view_reversed (h : heap) (l : loc)
    (position : position_arg) (bit : bool) (name : string) :
  create_colormap (ColorsArray (reversed (NdArray l false))) position bit
    true name h
  = create_colormap (ColorsArray (NdArray l false)) position bit false name h.
Proof.
  destruct (h !! l) as [b|] eqn:Hb.
  - rewrite (create_colormap_array (reversed (NdArray l false)) _ _ _ _ h b)
      by exact Hb.
    rewrite (create_colormap_array (NdArray l false) _ _ _ _ h b) by exact Hb.
    unfold final_rows, heap_returned. simpl. by rewrite rev_involutive.
  - by rewrite !create_colormap_dangling.
Qed.

(** ** [colormap_tuple] *)

Lemma first_three_channels (row : list num) (c : rgb) :
  first_three row = Some c -> channels c = firstn 3 row.
Proof.
  destruct row as [|r [|g [|b rest]]]; simpl; try discriminate.
  by intros [= <-].
Qed.

Lemma first_three_is_Some (row : list num) :
  is_Some (first_three row) <-> (3 <= length row)%nat.
Proof.
  destruct row as [|r [|g [|b rest]]]; simpl; split;
    try (intros [? ?]; discriminate); try lia; by eexists.
Qed.

Section LoaderProperties.

Variable genfromtxt : string -> nat -> nat -> option string -> outcome table.

(** X14: for a file read as a table of rows of at least three columns,
    [colormap_tuple] with [return_cmap=False] returns one tuple per row,
    in order, made of the first three columns of the row (further columns
    are dropped); the [return_tuple] flag plays no part, and no array is
    created or written. *)
Theorem X14_tuples_of_table (RGB_file : string) (return_tuple : bool)
    (headers footers : nat) (delimiter : option string)
    (rows : list (list num)) (h : heap) :
  genfromtxt RGB_file headers footers delimiter = Ret (Table2 rows) ->
  Forall (fun row => 3 <= length row)%nat rows ->
  exists l,
    colormap_tuple genfromtxt RGB_file return_tuple false headers footers
      delimiter h = (Ret (Tuples l), h)
    /\ length l = length rows
    /\ forall (i : nat) (row : list num),
         rows !! i = Some row ->
         exists c, l !! i = Some c /\ channels c = firstn 3 row.
Proof.
  intros Hfile Hrows.
  destruct (mapM first_three rows) as [l|] eqn:Hl.
  - exists l. apply mapM_Some in Hl. split; [|split].
    + unfold colormap_tuple, bind. rewrite Hfile, table_tuples_rows.
      apply mapM_Some in Hl. by rewrite Hl.
    + symmetry. by eapply Forall2_length.
    + intros i row Hi.
      destruct (Forall2_lookup_l _ _ _ _ _ Hl Hi) as (c & Hc & Hrow).
      exists c. split; [exact Hc | by apply first_three_channels].
  - exfalso. assert (Hsome : is_Some (mapM first_three rows)).
    { apply mapM_is_Some. eapply Forall_impl; [exact Hrows|].
      intros row Hrow. by apply first_three_is_Some. }
    rewrite Hl in Hsome. by destruct Hsome.
Qed.

(** X15: if some row of the table has fewer than three columns,
    [colormap_tuple] raises an IndexError in both modes, and the heap is
    as before. *)
Theorem X15_short_row_index_error (RGB_file : string)
    (return_tuple return_cmap : bool) (headers footers : nat)
    (delimiter : option string) (rows : list (list num)) (h : heap) :
  genfromtxt RGB_file headers footers delimiter = Ret (Table2 rows) ->
  Exists (fun row => length row < 3)%nat rows ->
  colormap_tuple genfromtxt RGB_file return_tuple return_cmap headers footers
    delimiter h = (Raise IndexError, h).
Proof.
  intros Hfile Hshort.
  assert (Hnone : mapM first_three rows = None).
  { destruct (mapM first_three rows) as [l|] eqn:Hl; [|reflexivity].
    exfalso. assert (Hsome : is_Some (mapM first_three rows)) by by eexists.
    apply mapM_is_Some in Hsome.
    apply Exists_exists in Hshort as (row & Hin & Hlen).
    rewrite Forall_forall in Hsome. specialize (Hsome row Hin).
    apply first_three_is_Some in Hsome. lia. }
  unfold colormap_tuple, bind. rewrite Hfile.
  destruct return_cmap; by rewrite table_tuples_rows, Hnone.
Qed.

(** X16: a file read as a one-dimensional array (a single row of
    numbers) or as a single number makes [colormap_tuple] raise an
    IndexError in both modes: a colour table of one row cannot be
    loaded. *)
Theorem X16_single_row_index_error (RGB_file : string)
    (return_tuple return_cmap : bool) (headers footers : nat)
    (delimiter : option string) (x : num) (xs : list num) (h : heap) :
  genfromtxt RGB_file headers footers delimiter = Ret (Table1 (x :: xs))
  \/ genfromtxt RGB_file headers footers delimiter = Ret (Table0 x) ->
  colormap_tuple genfromtxt RGB_file return_tuple return_cmap headers footers
    delimiter h = (Raise IndexError, h).
Proof.
  intros [Hfile|Hfile]; unfold colormap_tuple, bind; rewrite Hfile;
    by destruct return_cmap.
Qed.


End LoaderProperties.

Lemma X14_tuples_of_table_witness :
  exists l,
    colormap_tuple orange_blue_file "rgb.txt" false false 0 0 None []
    = (Ret (Tuples l), [])
    /\ length l = 2%nat
    /\ forall (i : nat) (row : list num),
         [[int 255; int 128; int 0]; [int 0; int 0; int 255]] !! i = Some row ->
         exists c, l !! i = Some c /\ channels c = firstn 3 row.
Proof.
  apply (X14_tuples_of_table orange_blue_file "rgb.txt" false 0 0 None
           [[int 255; int 128; int 0]; [int 0; int 0; int 255]] []).
  - reflexivity.
  - repeat constructor.
Defined.

Lemma X15_short_row_witness :
  colormap_tuple (fun _ _ _ _ => Ret (Table2 [[int 255; int 128]; [int 0; int 0]]))
    "rgb.txt" true true 0 0 None []
  = (Raise IndexError, []).
Proof.
  apply (X15_short_row_index_error
           (fun _ _ _ _ => Ret (Table2 [[int 255; int 128]; [int 0; int 0]]))
           "rgb.txt" true true 0 0 None
           [[int 255; int 128]; [int 0; int 0]] []).
  - reflexivity.
  - apply Exists_cons_hd. simpl. lia.
Defined.

Lemma X16_single_row_witness :
  colormap_tuple (fun _ _ _ _ => Ret (Table1 [int 255; int 128; int 0]))
    "rgb.txt" true false 0 0 None []
  = (Raise IndexError, []).
Proof.
  apply (X16_single_row_index_error
           (fun _ _ _ _ => Ret (Table1 [int 255; int 128; int 0]))
           "rgb.txt" true false 0 0 None (int 255) [int 128; int 0] []).
  left. reflexivity.
Defined.


(** ** [NCAR_RGB_pull] *)

Lemma split_nonempty (sep : ascii) (s : string) : split sep s <> [].
Proof.
  destruct s as [|c s]; simpl; [done|].
  destruct (Ascii.eqb c sep); [done|]. by destruct (split sep s).
Qed.

(** Splitting around an occurrence of the separator. *)
Lemma split_app (sep : ascii) (s1 s2 : string) :
  split sep (s1 +:+ String sep s2) = split sep s1 ++ split sep s2.
Proof.
  induction s1 as [|c s1 IH]; simpl.
  - by rewrite Ascii.eqb_refl.
  - rewrite IH. destruct (Ascii.eqb c sep); [reflexivity|].
    pose proof (split_nonempty sep s1) as Hne.
    by destruct (split sep s1).
Qed.

(** A string without the separator is its own single piece. *)
Lemma split_without (sep : ascii) (s : string) :
  occurs sep s = false -> split sep s = [s].
Proof.
  induction s as [|c s IH]; simpl; [done|].
  intros Hocc. apply orb_false_iff in Hocc as [Hc Hs].
  rewrite Hc, (IH Hs). reflexivity.
Qed.

(** The last piece after a separator followed by a string without it. *)
Lemma last_segment (sep : ascii) (pre r : string) :
  occurs sep r = false ->
  list.last (split sep (pre +:+ String sep r)) = Some r.
Proof.
  intros Hr. rewrite split_app, (split_without sep r Hr).
  by rewrite last_snoc.
Qed.

(** The address ends with a slash. *)
Lemma address_slash (name : string) :
  exists pre, address +:+ name = pre +:+ String slash name.
Proof.
  exists "https://www.ncl.ucar.edu/Document/Graphics/ColorTables/Files".
  reflexivity.
Qed.

Lemma string_app_assoc (s1 s2 s3 : string) :
  (s1 +:+ s2) +:+ s3 = s1 +:+ (s2 +:+ s3).
Proof.
  induction s1 as [|c s1 IH]; [reflexivity|].
  change (String c ((s1 +:+ s2) +:+ s3) = String c (s1 +:+ s2 +:+ s3)).
  by rewrite IH.
Qed.

(** The file name the function derives from [cmap_name]: for a name
    without slash the name itself, and for a name with directories in
    front its part after the last slash. *)
Lemma local_filename_of (cmap_name r : string) :
  occurs slash r = false ->
  cmap_name = r \/ (exists d, cmap_name = d +:+ String slash r) ->
  list.last (split slash (address +:+ cmap_name)) = Some r.
Proof.
  intros Hr [->|[d ->]].
  - destruct (address_slash r) as [pre ->]. by apply last_segment.
  - rewrite <- (string_app_assoc address d (String slash r)).
    by apply last_segment.
Qed.

Section FetcherProperties.

Variable requests_get : string -> option string.
Variable open_wb : string -> bool.
Variable getcwd : string.

(** X18: let [r] be the part of [cmap_name] after its last slash (the
    whole name if it has none).  When the request for
    [address + cmap_name] answers and the file can be opened, the call
    writes the raw body to the path [save_loc + r] (just [r] without
    [save_loc]; nothing is put between the directory and the name),
    prints the two completion lines, and leaves every other file as it
    was. *)
Theorem X18_pull_saves_last_segment (cmap_name r : string)
    (save_loc : option string) (raw : string) (w : world) :
  occurs slash r = false ->
  cmap_name = r \/ (exists d, cmap_name = d +:+ String slash r) ->
  let path := match save_loc with None => r | Some dir => dir +:+ r end in
  requests_get (address +:+ cmap_name) = Some raw ->
  open_wb path = true ->
  let run := NCAR_RGB_pull requests_get open_wb getcwd cmap_name save_loc w in
  fst run = Done
  /\ files (snd run) !! path = Some raw
  /\ (forall p : string, p <> path -> files (snd run) !! p = files w !! p)
  /\ stdout (snd run)
     = stdout w
       ++ ["Download complete for : " +:+ r;
           "File saved in : " +:+ newline
           +:+ match save_loc with None => getcwd | Some dir => dir end].
Proof.
  intros Hr Hname path Hget Hopen run. unfold run, NCAR_RGB_pull.
  rewrite (local_filename_of cmap_name r Hr Hname), Hget.
  fold path. rewrite Hopen. simpl.
  split; [reflexivity|]. split; [apply lookup_insert_eq|].
  split; [|reflexivity]. intros p Hp. by apply lookup_insert_ne.
Qed.


End FetcherProperties.

Lemma X18_pull_saves_witness :
  let requests_get := fun _ : string => Some "255 0 0" in
  let open_wb := fun _ : string => true in
  let w := World ∅ [] in
  let run := NCAR_RGB_pull requests_get open_wb "/home/user"
               "sub/hotres.rgb" (Some "data/") w in
  fst run = Done
  /\ files (snd run) !! "data/hotres.rgb" = Some "255 0 0"
  /\ (forall p : string,
        p <> "data/hotres.rgb" -> files (snd run) !! p = files w !! p)
  /\ stdout (snd run)
     = stdout w
       ++ ["Download complete for : " +:+ "hotres.rgb";
           "File saved in : " +:+ newline +:+ "data/"].
Proof.
  apply (X18_pull_saves_last_segment (fun _ : string => Some "255 0 0")
           (fun _ : string => true) "/home/user" "sub/hotres.rgb" "hotres.rgb"
           (Some "data/") "255 0 0" (World ∅ [])).
  - reflexivity.
  - right. exists "sub". reflexivity.
  - reflexivity.
  - reflexivity.
Defined.

